(** * AdminLayout: the merchant console's session gate and navigation shell

    A shallow embedding of [src/components/business/AdminLayout.tsx].

    The component is a React function component.  Its hooks become an
    explicit record of state ([UIState]), its event handlers become
    functions on that record which also emit the calls made to the
    external collaborators (auth context, router, window), and its JSX
    becomes a view tree whose fields are exactly the values the source
    branches on (active flags, expanded flags, which optional blocks are
    rendered).  Class names and static markup are not modelled.

    Strings are Rocq strings; every route in the table is ASCII, so
    [String.prefix] and [String.eqb] agree with [startsWith] and [===]. *)

From Stdlib Require Import ZArith String Ascii List Bool Lia.
From stdpp Require Import base option gmap strings list fin_maps pretty.
Import ListNotations.

Local Open Scope string_scope.
Local Open Scope Z_scope.

(** ** Values coming from JavaScript *)

Module Js.

(** An optional boolean property: [None] is [undefined] (or a missing
    property). *)
Definition truthy (v : option bool) : bool := default false v.

(** [!v] *)
Definition not (v : option bool) : bool := negb (truthy v).

(** [String(v)] for an optional string property, the conversion
    [startsWith] applies to its argument. *)
Definition toString (v : option string) : string := default "undefined" v.

(** [s.startsWith(p)] *)
Definition startsWith (s p : string) : bool := String.prefix p s.

(** [s === v] where [s] is a string and [v] an optional string. *)
Definition strictEq (s : string) (v : option string) : bool :=
  match v with
  | Some p => String.eqb s p
  | None => false
  end.

(** What it means for [s] to start with [p]. *)
Definition StartsWith (s p : string) : Prop := exists rest, s = p +:+ rest.

End Js.

(** ** Data model *)

Inductive Icon :=
| ChevronDownIcon | Bars3Icon | XMarkIcon | BellIcon | ShoppingBagIcon
| CubeIcon | TagIcon | ChartBarIcon | UserGroupIcon | CreditCardIcon
| CogIcon | ChatBubbleLeftIcon | DocumentChartBarIcon | StarIcon
| ArrowLeftOnRectangleIcon | ListBulletIcon | AdjustmentsHorizontalIcon.

(** An entry of the navigation table, as the object literal has it: both
    [path] and [submenu] are optional properties. *)
#[local] Unset Elimination Schemes.
Inductive NavigationItem := NavItem {
  name : string;
  icon : Icon;
  path : option string;
  submenu : option (list NavigationItem)
}.
#[local] Set Elimination Schemes.

Definition flat (n p : string) (i : Icon) : NavigationItem :=
  {| name := n; icon := i; path := Some p; submenu := None |}.

Definition section (n : string) (i : Icon) (subs : list NavigationItem)
  : NavigationItem :=
  {| name := n; icon := i; path := None; submenu := Some subs |}.

Definition navigationItems : list NavigationItem :=
  [ flat "Dashboard" "/business/dashboard" ChartBarIcon;
    section "Catalog" CubeIcon
      [ flat "Products" "/business/catalog/products" CubeIcon;
        flat "Categories" "/business/catalog/categories" ListBulletIcon;
        flat "Attributes" "/business/catalog/attributes"
          AdjustmentsHorizontalIcon ];
    flat "Orders" "/business/orders" ShoppingBagIcon;
    flat "Inventory" "/business/inventory" TagIcon;
    flat "Customers" "/business/customers" UserGroupIcon;
    flat "Payments" "/business/payments" CreditCardIcon;
    flat "Promotions" "/business/promotions" TagIcon;
    flat "Reviews" "/business/reviews" StarIcon;
    flat "Reports" "/business/reports" DocumentChartBarIcon;
    flat "Support" "/business/support" ChatBubbleLeftIcon;
    flat "Settings" "/business/settings" CogIcon ].

(** The NavigationItem invariant: exactly one of [path] and [submenu]. *)
Definition exactly_one (it : NavigationItem) : Prop :=
  (is_Some (path it) /\ submenu it = None) \/
  (path it = None /\ is_Some (submenu it)).

(** An item together with the entries of its submenu. *)
Definition item_invariant (it : NavigationItem) : Prop :=
  exactly_one it /\
  forall subs, submenu it = Some subs ->
    Forall (fun sub => exactly_one sub /\ is_Some (path sub)) subs.

(** The router's location object. *)
Record Location := {
  pathname : string;
  search : string;
  hash : string;
  key : string
}.

Record User := {
  user_name : option string;
  user_email : option string
}.

(** What [useAuth()] hands to the component.  The boolean fields are
    optional so that a context that has not filled them in can be
    expressed. *)
Record AuthSnapshot := {
  isAuthenticated : option bool;
  isMerchant : option bool;
  isMerchantVerified : option bool;
  user : option User
}.

(** The component's [useState] cells. *)
Record UIState := {
  isSidebarOpen : bool;
  isProfileMenuOpen : bool;
  isNotificationsOpen : bool;
  isMobile : bool;
  expandedMenus : gmap string bool
}.

Definition loginRoute : string := "/business-login".

(** ** Active-item resolution *)

(** [location.pathname.startsWith(subItem.path)] *)
Definition isSubItemActive (pathname : string) (subItem : NavigationItem)
  : bool :=
  Js.startsWith pathname (Js.toString (path subItem)).

(** [!!item.submenu]; an array, even an empty one, is truthy. *)
Definition hasSubmenu (item : NavigationItem) : bool :=
  match submenu item with Some _ => true | None => false end.

Definition isMenuActive (pathname : string) (item : NavigationItem) : bool :=
  match submenu item with
  | Some subs => existsb (isSubItemActive pathname) subs
  | None => Js.strictEq pathname (path item)
  end.

(** [expandedMenus[item.name] || false] *)
Definition isExpanded (expanded : gmap string bool) (n : string) : bool :=
  Js.truthy (expanded !! n) || false.

(** ** The rendered tree *)

Record SubEntry := {
  sub_key : string;
  sub_to : option string;
  sub_icon : Icon;
  sub_active : bool
}.

Inductive NavEntry :=
| SectionEntry (label : string) (ico : Icon) (active : bool)
    (chevronRotated : bool) (children : option (list SubEntry))
| LinkEntry (label : string) (to : option string) (ico : Icon)
    (active : bool).

(** Whether a top-level entry is rendered highlighted. *)
Definition entryActive (entry : NavEntry) : bool :=
  match entry with
  | SectionEntry _ _ active _ _ => active
  | LinkEntry _ _ _ active => active
  end.

(** The nested render slot, [<Outlet />]. *)
Inductive Content := Outlet.

Record ShellView := {
  sidebarShown : bool;
  closeButton : bool;
  nav : list NavEntry;
  notificationsPanel : bool;
  profileMenu : bool;
  content : Content;
  backdrop : bool
}.

(** The [state] prop of [<Navigate>]: [{ from: location }]. *)
Record RedirectState := { from : Location }.

Inductive Rendered :=
| Navigate (to : string) (state : RedirectState) (replace : bool)
| Shell (view : ShellView).

Definition renderSubItem (pathname : string) (subItem : NavigationItem)
  : SubEntry :=
  {| sub_key := name subItem;
     sub_to := path subItem;
     sub_icon := icon subItem;
     sub_active := isSubItemActive pathname subItem |}.

Definition renderItem (pathname : string) (expanded : gmap string bool)
    (item : NavigationItem) : NavEntry :=
  match submenu item with
  | Some subs =>
      SectionEntry (name item) (icon item) (isMenuActive pathname item)
        (isExpanded expanded (name item))
        (if isExpanded expanded (name item)
         then Some (map (renderSubItem pathname) subs)
         else None)
  | None =>
      LinkEntry (name item) (path item) (icon item)
        (isMenuActive pathname item)
  end.

Definition NavigationShell (location : Location) (st : UIState) : ShellView :=
  {| sidebarShown := isSidebarOpen st;
     closeButton := isMobile st;
     nav := map (renderItem (pathname location) (expandedMenus st))
                navigationItems;
     notificationsPanel := isNotificationsOpen st;
     profileMenu := isProfileMenuOpen st;
     content := Outlet;
     backdrop := isMobile st && isSidebarOpen st |}.

(** The component body: the session gate, then the shell. *)
Definition AdminLayout (auth : AuthSnapshot) (location : Location)
    (st : UIState) : Rendered :=
  if Js.not (isAuthenticated auth) || Js.not (isMerchant auth)
  then Navigate loginRoute {| from := location |} true
  else Shell (NavigationShell location st).

(** ** Event handlers

    A handler runs to completion against the state of the render it was
    created in.  It updates [useState] cells and calls the external
    collaborators; the calls are recorded in order. *)

Inductive Call :=
| AuthLogout
| RouterNavigate (to : string)
| AddResizeListener
| RemoveResizeListener.

Definition Handler (A : Type) : Type := UIState -> A * UIState * list Call.

Definition ret {A} (a : A) : Handler A := fun st => (a, st, []).

Definition bind {A B} (m : Handler A) (k : A -> Handler B) : Handler B :=
  fun st =>
    let '(a, st1, c1) := m st in
    let '(b, st2, c2) := k a st1 in
    (b, st2, (c1 ++ c2)%list).

Declare Scope handler_scope.
Delimit Scope handler_scope with handler.
Notation "m ;; k" := (bind m (fun _ => k))
  (at level 100, right associativity) : handler_scope.
Local Open Scope handler_scope.

Definition call (c : Call) : Handler unit := fun st => (tt, st, [c]).

Definition setIsSidebarOpen (v : bool) : Handler unit := fun st =>
  (tt, {| isSidebarOpen := v;
          isProfileMenuOpen := isProfileMenuOpen st;
          isNotificationsOpen := isNotificationsOpen st;
          isMobile := isMobile st;
          expandedMenus := expandedMenus st |}, []).

Definition setIsProfileMenuOpen (v : bool) : Handler unit := fun st =>
  (tt, {| isSidebarOpen := isSidebarOpen st;
          isProfileMenuOpen := v;
          isNotificationsOpen := isNotificationsOpen st;
          isMobile := isMobile st;
          expandedMenus := expandedMenus st |}, []).

Definition setIsNotificationsOpen (v : bool) : Handler unit := fun st =>
  (tt, {| isSidebarOpen := isSidebarOpen st;
          isProfileMenuOpen := isProfileMenuOpen st;
          isNotificationsOpen := v;
          isMobile := isMobile st;
          expandedMenus := expandedMenus st |}, []).

Definition setIsMobile (v : bool) : Handler unit := fun st =>
  (tt, {| isSidebarOpen := isSidebarOpen st;
          isProfileMenuOpen := isProfileMenuOpen st;
          isNotificationsOpen := isNotificationsOpen st;
          isMobile := v;
          expandedMenus := expandedMenus st |}, []).

(** [setExpandedMenus(prev => f(prev))] *)
Definition setExpandedMenus (f : gmap string bool -> gmap string bool)
  : Handler unit := fun st =>
  (tt, {| isSidebarOpen := isSidebarOpen st;
          isProfileMenuOpen := isProfileMenuOpen st;
          isNotificationsOpen := isNotificationsOpen st;
          isMobile := isMobile st;
          expandedMenus := f (expandedMenus st) |}, []).

(** [items.forEach(body)] *)
Fixpoint forEach {A} (items : list A) (body : A -> Handler unit)
  : Handler unit :=
  match items with
  | [] => ret tt
  | x :: rest => body x ;; forEach rest body
  end.

Definition state_of {A} (r : A * UIState * list Call) : UIState := snd (fst r).
Definition calls_of {A} (r : A * UIState * list Call) : list Call := snd r.

(** [handleResize], with [window.innerWidth] as its argument. *)
Definition handleResize (innerWidth : Z) : Handler unit :=
  setIsMobile (innerWidth <? 768) ;;
  if innerWidth >=? 768 then setIsSidebarOpen true else ret tt.

(** The mount effect: register the listener, then initialise. *)
Definition resizeEffect (innerWidth : Z) : Handler unit :=
  call AddResizeListener ;; handleResize innerWidth.

Definition resizeCleanup : Handler unit := call RemoveResizeListener.

(** The effect that depends on [location.pathname], over a table. *)
Definition autoExpandOver (items : list NavigationItem) (pathname : string)
  : Handler unit :=
  forEach items (fun item =>
    match submenu item with
    | Some subs =>
        let isSubmenuActive :=
          existsb (fun subItem =>
                     Js.startsWith pathname (Js.toString (path subItem)))
                  subs in
        if isSubmenuActive
        then setExpandedMenus (fun prev => <[name item := true]> prev)
        else ret tt
    | None => ret tt
    end).

Definition autoExpandEffect (pathname : string) : Handler unit :=
  autoExpandOver navigationItems pathname.

(** [toggleSidebar]: negates the value captured by the render. *)
Definition toggleSidebar : Handler unit := fun st =>
  setIsSidebarOpen (negb (isSidebarOpen st)) st.

(** [toggleSubmenu]: [prev[name]] of an absent key is [undefined]. *)
Definition toggleSubmenu (n : string) : Handler unit :=
  setExpandedMenus (fun prev => <[n := Js.not (prev !! n)]> prev).

Definition handleLogout : Handler unit :=
  call AuthLogout ;; call (RouterNavigate loginRoute).

Definition toggleNotifications : Handler unit := fun st =>
  setIsNotificationsOpen (negb (isNotificationsOpen st)) st.

Definition toggleProfileMenu : Handler unit := fun st =>
  setIsProfileMenuOpen (negb (isProfileMenuOpen st)) st.

(** ** The component as a transition system *)

Inductive Event :=
| Resize (innerWidth : Z)
| RouteChange (pathname : string)
| ClickHamburger
| ClickSidebarClose
| ClickBackdrop
| ClickSection (n : string)
| ClickNotifications
| ClickProfile
| ClickSignOut.

Definition handle (e : Event) : Handler unit :=
  match e with
  | Resize w => handleResize w
  | RouteChange p => autoExpandEffect p
  | ClickHamburger | ClickSidebarClose | ClickBackdrop => toggleSidebar
  | ClickSection n => toggleSubmenu n
  | ClickNotifications => toggleNotifications
  | ClickProfile => toggleProfileMenu
  | ClickSignOut => handleLogout
  end.

Definition step (e : Event) (st : UIState) : UIState := state_of (handle e st).

Definition run (es : list Event) (st : UIState) : UIState :=
  fold_left (fun s e => step e s) es st.

(** The [useState] initialisers. *)
Definition initialState (innerWidth : Z) : UIState :=
  {| isSidebarOpen := false;
     isProfileMenuOpen := false;
     isNotificationsOpen := false;
     isMobile := innerWidth <? 768;
     expandedMenus := {[ "Catalog" := true ]} |}.

(** First render followed by the two effects, in declaration order. *)
Definition mount (innerWidth : Z) (pathname : string) : UIState :=
  state_of ((resizeEffect innerWidth ;; autoExpandEffect pathname)
              (initialState innerWidth)).

(** Record update of the expansion map alone. *)
Definition withExpandedMenus (st : UIState) (m : gmap string bool) : UIState :=
  {| isSidebarOpen := isSidebarOpen st;
     isProfileMenuOpen := isProfileMenuOpen st;
     isNotificationsOpen := isNotificationsOpen st;
     isMobile := isMobile st;
     expandedMenus := m |}.

(** The queued updaters of the route effect, composed in table order. *)
Definition expandFold (items : list NavigationItem) (pathname : string)
    (prev : gmap string bool) : gmap string bool :=
  fold_left (fun acc item =>
               if hasSubmenu item && isMenuActive pathname item
               then <[name item := true]> acc else acc)
            items prev.

(** A section of the table whose active-resolution is true at a route. *)
Definition ActiveSection (pathname n : string) : Prop :=
  exists item, In item navigationItems /\ name item = n /\
               hasSubmenu item = true /\ isMenuActive pathname item = true.

(** The element the gate returns for a visitor it turns away. *)
Definition redirectToLogin (location : Location) : Rendered :=
  Navigate "/business-login" {| from := location |} true.

Definition categoriesRoute : string := "/business/catalog/categories".

Definition catalogSection : NavigationItem :=
  section "Catalog" CubeIcon
    [ flat "Products" "/business/catalog/products" CubeIcon;
      flat "Categories" "/business/catalog/categories" ListBulletIcon;
      flat "Attributes" "/business/catalog/attributes"
        AdjustmentsHorizontalIcon ].

(** ** The profile button's text *)

(** [s.charAt(0)]: the first character, or the empty string. *)
Definition charAt0 (s : string) : string :=
  match s with
  | EmptyString => ""
  | String c _ => String c ""
  end.

(** [s.split(sep)[0]]: what precedes the first separator. *)
Fixpoint splitHead (sep : ascii) (s : string) : string :=
  match s with
  | EmptyString => ""
  | String c rest =>
      if Ascii.eqb c sep then "" else String c (splitHead sep rest)
  end.

(** [v || d] where [v] is a string or [undefined] and [d] a string. *)
Definition orString (v : option string) (d : string) : string :=
  match v with
  | Some s => if String.eqb s "" then d else s
  | None => d
  end.

(** [user?.name?.charAt(0) || user?.email?.charAt(0) || 'M'] *)
Definition avatarInitial (u : option User) : string :=
  orString (charAt0 <$> (u ≫= user_name))
    (orString (charAt0 <$> (u ≫= user_email)) "M").

(** [user?.name || user?.email?.split('@')[0] || 'Merchant'] *)
Definition displayName (u : option User) : string :=
  orString (u ≫= user_name)
    (orString (splitHead "@" <$> (u ≫= user_email)) "Merchant").

(** ** The component's life, with its calls *)

(** The events of a session, handled one after the other. *)
Definition handleAll (es : list Event) : Handler unit := forEach es handle.

(** Mount at a width and a route, handle the events, unmount. *)
Definition lifecycle (innerWidth : Z) (pathname : string) (es : list Event)
  : Handler unit :=
  (resizeEffect innerWidth ;; autoExpandEffect pathname) ;;
  handleAll es ;;
  resizeCleanup.

(** The calls an event makes, whatever the state. *)
Definition callsFor (e : Event) : list Call :=
  match e with
  | ClickSignOut => [AuthLogout; RouterNavigate "/business-login"]
  | _ => []
  end.

Definition subActiveCount (children : option (list SubEntry)) : nat :=
  match children with
  | Some subs => length (List.filter sub_active subs)
  | None => 0
  end.

Definition sectionChildren (entry : NavEntry) : option (list SubEntry) :=
  match entry with
  | SectionEntry _ _ _ _ children => children
  | LinkEntry _ _ _ _ => None
  end.

(** An event leaves the notifications flag, or the profile flag, as the
    state has it. *)
Definition notificationsPanel_flag_unchanged (e : Event) (st : UIState)
  : Prop :=
  isNotificationsOpen (step e st) = isNotificationsOpen st.

Definition profileMenu_flag_unchanged (e : Event) (st : UIState) : Prop :=
  isProfileMenuOpen (step e st) = isProfileMenuOpen st.

(** * SignIn: the customer sign-in page

    The second component of the file.  Its handlers are asynchronous: each
    awaits [fetch], [response.json()] and, on success, [setAuthState].
    What these settle to is given to the handler as an argument, so that a
    handler is a function from the form's state and those outcomes to the
    final state and the calls made, in order.  A string is a sequence of
    code units; the ones a Rocq string can hold are those below 256. *)

Module SignIn.

(** JSON numbers stay abstract: the page only tests them for truthiness
    and prints them. *)
Class JsNumber (Num : Type) := {
  numTruthy : Num -> bool;
  numToString : Num -> string
}.

#[local] Unset Elimination Schemes.
Inductive Json {Num : Type} :=
| JNull
| JBool (b : bool)
| JNum (n : Num)
| JStr (s : string)
| JArr (items : list Json)
| JObj (fields : list (string * Json)).
#[local] Set Elimination Schemes.
Arguments Json : clear implicits.

(** What a [throw] or a rejection carries: an [Error] with its message, or
    some other value. *)
Inductive Thrown := ErrorObject (message : string) | NotAnError.

Inductive Settled (A : Type) := Fulfilled (a : A) | Rejected (t : Thrown).
Arguments Fulfilled {A} a.
Arguments Rejected {A} t.

Inductive Role := merchant | admin | customer.

Record FormState := {
  email : string;
  password : string;
  error : string;
  isSubmitting : bool;
  showForgotPassword : bool
}.

Inductive RequestBody :=
| LoginBody (email password : string)
| ResetBody (email : string)
| GoogleBody (id_token : option string).

(** The argument of the Google button's success callback. *)
Record CredentialResponse := { credential : option string }.

Section Page.

Context {Num : Type} `{JsNumber Num}.

(** [import.meta.env.VITE_API_BASE_URL], possibly undefined. *)
Variable API_BASE_URL : option string.

(** The message of the [TypeError] raised on reading the named property
    of [null] or [undefined]. *)
Variable nullReadMessage : string -> string.

Record Response := { ok : bool; body : Settled (Json Num) }.

Record UserObj := {
  obj_id : Json Num;
  obj_email : Json Num;
  obj_name : string;
  obj_role : Role
}.

Record AuthPayload := {
  accessToken : option (Json Num);
  refreshToken : option (Json Num);
  user : UserObj
}.

Inductive Call :=
| PreventDefault
| Fetch (url : string) (body : RequestBody)
| ReadJson
| SetAuthState (payload : AuthPayload)
| Navigate (to : string)
| ConsoleError (err : Thrown).

(** ** JavaScript values *)

(** The value of the last binding of a key, as [JSON.parse] keeps it. *)
Fixpoint lookupLast (k : string) (fields : list (string * Json Num))
  : option (Json Num) :=
  match fields with
  | [] => None
  | (k', v) :: rest =>
      match lookupLast k rest with
      | Some w => Some w
      | None => if String.eqb k' k then Some v else None
      end
  end.

(** [v.k] for a value other than [null], and a key that no prototype
    defines: only an object can have it. *)
Definition getProp (v : Json Num) (k : string) : option (Json Num) :=
  match v with
  | JObj fields => lookupLast k fields
  | _ => None
  end.

(** [v?.k] *)
Definition optProp (v : option (Json Num)) (k : string)
  : option (Json Num) :=
  match v with
  | None | Some JNull => None
  | Some j => getProp j k
  end.

Definition truthy (v : option (Json Num)) : bool :=
  match v with
  | None | Some JNull => false
  | Some (JBool b) => b
  | Some (JNum n) => numTruthy n
  | Some (JStr s) => negb (String.eqb s "")
  | Some (JArr _) | Some (JObj _) => true
  end.

(** [v || d] *)
Definition orElse (v : option (Json Num)) (d : Json Num) : Json Num :=
  match v with
  | Some j => if truthy v then j else d
  | None => d
  end.

(** [String(v)], as a template literal and [new Error(v)] apply it. *)
Fixpoint toStr (v : Json Num) : string :=
  match v with
  | JNull => "null"
  | JBool true => "true"
  | JBool false => "false"
  | JNum n => numToString n
  | JStr s => s
  | JArr items =>
      (fix join (l : list (Json Num)) : string :=
         match l with
         | [] => ""
         | x :: rest =>
             (match x with JNull => "" | _ => toStr x end)
             +:+ match rest with [] => "" | _ :: _ => "," +:+ join rest end
         end) items
  | JObj _ => "[object Object]"
  end.

(** [v === s] for a string literal [s]. *)
Definition strictEqStr (v : option (Json Num)) (s : string) : bool :=
  match v with
  | Some (JStr t) => String.eqb t s
  | _ => false
  end.

(** White space and line terminators below 256. *)
Definition isWhiteSpace (c : ascii) : bool :=
  let n := nat_of_ascii c in
  ((9 <=? n) && (n <=? 13) || (n =? 32) || (n =? 160))%nat.

Fixpoint trimStart (s : string) : string :=
  match s with
  | EmptyString => ""
  | String c rest => if isWhiteSpace c then trimStart rest else s
  end.

Fixpoint trimEnd (s : string) : string :=
  match s with
  | EmptyString => ""
  | String c rest =>
      match trimEnd rest with
      | EmptyString => if isWhiteSpace c then "" else String c ""
      | kept => String c kept
      end
  end.

(** [s.trim()] *)
Definition trim (s : string) : string := trimEnd (trimStart s).

(** ** The user object built from a response *)

Definition roleOf (u : option (Json Num)) : Role :=
  if strictEqStr (optProp u "role") "MERCHANT" then merchant
  else if strictEqStr (optProp u "role") "ADMIN" then admin
  else customer.

Definition nameOf (u : option (Json Num)) : string :=
  let full :=
    trim (toStr (orElse (optProp u "first_name") (JStr "")) +:+ " " +:+
          toStr (orElse (optProp u "last_name") (JStr ""))) in
  if String.eqb full "" then "User" else full.

(** [u] is [data.user]; [fallbackEmail] is the form's email in
    [handleSubmit] and the empty string in [handleGoogleSuccess]. *)
Definition userObjOf (u : option (Json Num)) (fallbackEmail : string)
  : UserObj :=
  {| obj_id := orElse (optProp u "id") (JStr "unknown");
     obj_email := orElse (optProp u "email") (JStr fallbackEmail);
     obj_name := nameOf u;
     obj_role := roleOf u |}.

(** ** Handlers: state, calls and exceptions *)

Definition M (A : Type) : Type :=
  FormState -> Settled A * FormState * list Call.

Definition ret {A} (a : A) : M A := fun st => (Fulfilled a, st, []).

Definition throw {A} (t : Thrown) : M A := fun st => (Rejected t, st, []).

Definition bind {A B} (m : M A) (k : A -> M B) : M B := fun st =>
  match m st with
  | (Fulfilled a, st1, c1) =>
      let '(r, st2, c2) := k a st1 in (r, st2, (c1 ++ c2)%list)
  | (Rejected t, st1, c1) => (Rejected t, st1, c1)
  end.

(** [try { body } catch (err) { handler(err) }] *)
Definition tryCatch {A} (body : M A) (handler : Thrown -> M A) : M A :=
  fun st =>
    match body st with
    | (Fulfilled a, st1, c1) => (Fulfilled a, st1, c1)
    | (Rejected t, st1, c1) =>
        let '(r, st2, c2) := handler t st1 in (r, st2, (c1 ++ c2)%list)
    end.

(** [try { body } finally { final }] *)
Definition tryFinally {A} (body : M A) (final : M unit) : M A := fun st =>
  let '(r, st1, c1) := body st in
  match final st1 with
  | (Fulfilled _, st2, c2) => (r, st2, (c1 ++ c2)%list)
  | (Rejected t, st2, c2) => (Rejected t, st2, (c1 ++ c2)%list)
  end.

Declare Scope signin_scope.
Notation "'let*' x ':=' m 'in' k" := (bind m (fun x => k))
  (at level 10, x name, m at level 100, k at level 200) : signin_scope.
Notation "m ;; k" := (bind m (fun _ => k))
  (at level 100, right associativity) : signin_scope.
Local Open Scope signin_scope.

Definition call (c : Call) : M unit := fun st => (Fulfilled tt, st, [c]).

Definition setError (v : string) : M unit := fun st =>
  (Fulfilled tt,
   {| email := email st; password := password st; error := v;
      isSubmitting := isSubmitting st;
      showForgotPassword := showForgotPassword st |}, []).

Definition setIsSubmitting (v : bool) : M unit := fun st =>
  (Fulfilled tt,
   {| email := email st; password := password st; error := error st;
      isSubmitting := v;
      showForgotPassword := showForgotPassword st |}, []).

Definition setShowForgotPassword (v : bool) : M unit := fun st =>
  (Fulfilled tt,
   {| email := email st; password := password st; error := error st;
      isSubmitting := isSubmitting st;
      showForgotPassword := v |}, []).

Definition setEmail (v : string) : M unit := fun st =>
  (Fulfilled tt,
   {| email := v; password := password st; error := error st;
      isSubmitting := isSubmitting st;
      showForgotPassword := showForgotPassword st |}, []).

Definition setPassword (v : string) : M unit := fun st =>
  (Fulfilled tt,
   {| email := email st; password := v; error := error st;
      isSubmitting := isSubmitting st;
      showForgotPassword := showForgotPassword st |}, []).

(** Awaiting a promise whose outcome is known. *)
Definition await {A} (c : Call) (outcome : Settled A) : M A := fun st =>
  (outcome, st, [c]).

(** [await fetch(`${API_BASE_URL}${route}`, { method: 'POST', ... })] *)
Definition fetch (route : string) (b : RequestBody)
    (outcome : Settled Response) : M Response :=
  await (Fetch (Js.toString API_BASE_URL +:+ route) b) outcome.

(** [await response.json()] *)
Definition json (response : Response) : M (Json Num) :=
  await ReadJson (body response).

(** [data.k], which throws when [data] is [null]. *)
Definition readProp (data : Json Num) (k : string) : M (option (Json Num)) :=
  match data with
  | JNull => throw (ErrorObject (nullReadMessage k))
  | _ => ret (getProp data k)
  end.

(** [err instanceof Error ? err.message : fallback] *)
Definition messageOf (err : Thrown) (fallback : string) : string :=
  match err with
  | ErrorObject m => m
  | NotAnError => fallback
  end.

(** [if (!response.ok) throw new Error(data.error || fallback)] *)
Definition throwUnlessOk (response : Response) (data : Json Num)
    (fallback : string) : M unit :=
  if negb (ok response)
  then let* e := readProp data "error" in
       throw (ErrorObject (toStr (orElse e (JStr fallback))))
  else ret tt.

(** The part shared by the two sign-in handlers: build the user object,
    hand it to the auth context with the tokens, go home on success. *)
Definition storeSession (data : Json Num) (fallbackEmail : string)
    (stored : Settled bool) : M unit :=
  let* u := readProp data "user" in
  let userObj := userObjOf u fallbackEmail in
  let* success :=
    await (SetAuthState {| accessToken := getProp data "access_token";
                           refreshToken := getProp data "refresh_token";
                           user := userObj |}) stored in
  if (success : bool) then call (Navigate "/") else ret tt.

Definition handleSubmit (fetched : Settled Response) (stored : Settled bool)
  : M unit := fun st =>
  (call PreventDefault ;;
   setIsSubmitting true ;;
   setError "" ;;
   tryFinally
     (tryCatch
        (let* response :=
           fetch "/api/auth/login" (LoginBody (email st) (password st))
             fetched in
         let* data := json response in
         throwUnlessOk response data "Failed to sign in" ;;
         storeSession data (email st) stored)
        (fun err =>
           setError (messageOf err "An error occurred during sign in") ;;
           call (ConsoleError err)))
     (setIsSubmitting false)) st.

Definition handleForgotPassword (fetched : Settled Response) : M unit :=
  fun st =>
  (call PreventDefault ;;
   setIsSubmitting true ;;
   setError "" ;;
   tryFinally
     (tryCatch
        (let* response :=
           fetch "/api/auth/password/reset-request" (ResetBody (email st))
             fetched in
         let* data := json response in
         throwUnlessOk response data "Failed to send reset email" ;;
         setError "Password reset email sent. Please check your inbox." ;;
         setShowForgotPassword false)
        (fun err => setError (messageOf err "Failed to send reset email")))
     (setIsSubmitting false)) st.

Definition handleGoogleSuccess (credentialResponse : option CredentialResponse)
    (fetched : Settled Response) (stored : Settled bool) : M unit :=
  tryCatch
    (let* id_token :=
       match credentialResponse with
       | Some r => ret (credential r)
       | None => throw (ErrorObject (nullReadMessage "credential"))
       end in
     let* response := fetch "/api/auth/google" (GoogleBody id_token) fetched in
     let* data := json response in
     throwUnlessOk response data "Google sign-in failed" ;;
     storeSession data "" stored)
    (fun err => setError (messageOf err "Google sign-in error")).

Definition handleGoogleError : M unit :=
  setError "Google sign-in was unsuccessful. Please try again.".

(** ** What the page shows *)

Inductive Form := SignInForm | ResetForm.

Record View := {
  banner : option string;
  form : Form;
  emailValue : string;
  passwordValue : option string;
  submitDisabled : bool;
  submitLabel : string
}.

Definition render (st : FormState) : View :=
  {| banner := if String.eqb (error st) "" then None else Some (error st);
     form := if negb (showForgotPassword st) then SignInForm else ResetForm;
     emailValue := email st;
     passwordValue :=
       if negb (showForgotPassword st) then Some (password st) else None;
     submitDisabled := isSubmitting st;
     submitLabel :=
       if negb (showForgotPassword st)
       then (if isSubmitting st then "Signing in..." else "Sign in")
       else (if isSubmitting st then "Sending..." else "Send Reset Link") |}.

Definition result_of {A} (r : Settled A * FormState * list Call)
  : Settled A := fst (fst r).
Definition final_of {A} (r : Settled A * FormState * list Call)
  : FormState := snd (fst r).
Definition trace_of {A} (r : Settled A * FormState * list Call)
  : list Call := snd r.

End Page.

(** Integers as JSON numbers.  JavaScript prints an integer in decimal
    while its magnitude is below 10^21, which is the range meant here. *)
#[global] Instance integerNumber : JsNumber Z := {|
  numTruthy n := negb (n =? 0);
  numToString n := pretty n
|}.

End SignIn.

(** * Properties *)

(** ** Strings *)

Lemma startsWith_spec (s p : string) :
  Js.startsWith s p = true <-> Js.StartsWith s p.
Proof.
  unfold Js.startsWith, Js.StartsWith.
  revert s; induction p as [|a p IH]; intros s.
  - destruct s; simpl; split; eauto.
  - destruct s as [|b s]; simpl.
    + split; [discriminate | intros [rest H]; discriminate].
    + destruct (ascii_dec a b) as [->|Hne].
      * rewrite IH. split; intros [rest H]; exists rest.
        -- now rewrite H.
        -- now inversion H.
      * split; [discriminate | intros [rest H]; inversion H; congruence].
Qed.

Lemma strictEq_spec (s p : string) :
  Js.strictEq s (Some p) = true <-> s = p.
Proof. simpl. apply String.eqb_eq. Qed.

(** ** The navigation table *)

Lemma flat_exactly_one (n p : string) (i : Icon) :
  exactly_one (flat n p i) /\ is_Some (path (flat n p i)).
Proof. unfold exactly_one; simpl. split; [left; split|]; eauto. Qed.

Lemma flat_invariant (n p : string) (i : Icon) : item_invariant (flat n p i).
Proof.
  split; [apply flat_exactly_one | simpl; discriminate].
Qed.

Lemma section_invariant (n : string) (i : Icon) (subs : list NavigationItem) :
  Forall (fun sub => exactly_one sub /\ is_Some (path sub)) subs ->
  item_invariant (section n i subs).
Proof.
  intros Hsubs. split.
  - right. simpl. eauto.
  - simpl. now intros ? [= <-].
Qed.

(** C9. Every entry of [navigationItems] has exactly one of [path] and
    [submenu], and so has every entry of a submenu, each of which has a
    path. *)
Theorem navigationItems_invariant :
  Forall item_invariant navigationItems.
Proof.
  unfold navigationItems.
  repeat (constructor;
          [ first [ apply flat_invariant
                  | apply section_invariant;
                    repeat (constructor; [apply flat_exactly_one|]);
                    constructor ] | ]).
  constructor.
Qed.

(** ** Active-item resolution *)

Lemma isSubItemActive_spec (pathname p : string) (sub : NavigationItem) :
  path sub = Some p ->
  (isSubItemActive pathname sub = true <-> Js.StartsWith pathname p).
Proof.
  intros Hp. unfold isSubItemActive. rewrite Hp. simpl.
  apply startsWith_spec.
Qed.

Lemma section_active_intro (pathname : string) (it sub : NavigationItem)
    (subs : list NavigationItem) :
  submenu it = Some subs -> In sub subs ->
  isSubItemActive pathname sub = true ->
  isMenuActive pathname it = true.
Proof.
  intros Hs Hin Hact. unfold isMenuActive. rewrite Hs.
  apply existsb_exists. eauto.
Qed.

(** C3. A flat item is active iff the route equals its path; a section is
    active iff the route starts with the path of one of its sub-items; a
    sub-item is active iff the route starts with its path; so a route that
    starts with a sub-item's path marks both the sub-item and its section. *)
Theorem active_resolution (pathname : string) (it : NavigationItem) :
  item_invariant it ->
  (forall p, path it = Some p ->
     (isMenuActive pathname it = true <-> pathname = p)) /\
  (forall subs, submenu it = Some subs ->
     (isMenuActive pathname it = true <->
      exists sub p, In sub subs /\ path sub = Some p /\
                    Js.StartsWith pathname p) /\
     (forall sub p, In sub subs -> path sub = Some p ->
        (isSubItemActive pathname sub = true <-> Js.StartsWith pathname p)) /\
     (forall sub p, In sub subs -> path sub = Some p ->
        Js.StartsWith pathname p ->
        isSubItemActive pathname sub = true /\
        isMenuActive pathname it = true)).
Proof.
  intros [Hone Hsubs]. split.
  - intros p Hp. destruct Hone as [[_ Hnone] | [Hnone _]]; [|congruence].
    unfold isMenuActive. rewrite Hnone, Hp. apply strictEq_spec.
  - intros subs Hs. specialize (Hsubs subs Hs).
    rewrite Forall_forall in Hsubs. split; [|split].
    + unfold isMenuActive. rewrite Hs, existsb_exists. split.
      * intros (sub & Hin & Hact).
        destruct (Hsubs sub) as [_ [p Hp]]; [now apply list_elem_of_In|].
        exists sub, p. repeat split; try assumption.
        now apply (isSubItemActive_spec pathname p sub Hp).
      * intros (sub & p & Hin & Hp & Hst). exists sub. split; [assumption|].
        now apply (isSubItemActive_spec pathname p sub Hp).
    + intros sub p _ Hp. now apply isSubItemActive_spec.
    + intros sub p Hin Hp Hst.
      assert (isSubItemActive pathname sub = true) as Hact
        by now apply (isSubItemActive_spec pathname p sub Hp).
      split; [assumption|]. eapply section_active_intro; eauto.
Qed.

Lemma active_resolution_witness :
  let products := flat "Products" "/business/catalog/products" CubeIcon in
  isSubItemActive "/business/catalog/products/42/edit" products = true /\
  isMenuActive "/business/catalog/products/42/edit" catalogSection = true.
Proof.
  intros products.
  destruct (active_resolution "/business/catalog/products/42/edit"
              catalogSection) as [_ Hsec].
  - apply section_invariant.
    repeat (constructor; [apply flat_exactly_one|]). constructor.
  - destruct (Hsec _ eq_refl) as (_ & _ & Hboth).
    apply (Hboth products "/business/catalog/products").
    + left. reflexivity.
    + reflexivity.
    + exists "/42/edit". reflexivity.
Defined.

(** ** The route effect *)

Lemma withExpandedMenus_id (st : UIState) :
  withExpandedMenus st (expandedMenus st) = st.
Proof. now destruct st. Qed.

Lemma autoExpandOver_run (items : list NavigationItem) (pathname : string)
    (st : UIState) :
  autoExpandOver items pathname st =
  (tt, withExpandedMenus st (expandFold items pathname (expandedMenus st)), []).
Proof.
  revert st. induction items as [|item rest IH]; intros st.
  - simpl. unfold ret. now rewrite withExpandedMenus_id.
  - unfold autoExpandOver in *. cbn [forEach]. unfold bind.
    unfold expandFold; cbn [fold_left]. unfold isMenuActive, hasSubmenu.
    destruct (submenu item) as [subs|] eqn:Hs.
    + fold (isSubItemActive pathname).
      change (existsb (fun subItem =>
                Js.startsWith pathname (Js.toString (path subItem))) subs)
        with (existsb (isSubItemActive pathname) subs).
      destruct (existsb (isSubItemActive pathname) subs); simpl.
      * rewrite IH. reflexivity.
      * rewrite IH. reflexivity.
    + simpl. rewrite IH. reflexivity.
Qed.

Lemma step_route (pathname : string) (st : UIState) :
  step (RouteChange pathname) st =
  withExpandedMenus st
    (expandFold navigationItems pathname (expandedMenus st)).
Proof.
  unfold step, handle, autoExpandEffect. now rewrite autoExpandOver_run.
Qed.

Lemma expandFold_lookup (items : list NavigationItem) (pathname n : string)
    (prev : gmap string bool) :
  expandFold items pathname prev !! n =
  if existsb (fun item => String.eqb (name item) n && hasSubmenu item
                          && isMenuActive pathname item) items
  then Some true else prev !! n.
Proof.
  revert prev. induction items as [|item rest IH]; intros prev; [reflexivity|].
  unfold expandFold in *. cbn [fold_left existsb]. rewrite IH.
  destruct (existsb _ rest); [now rewrite orb_true_r|]. rewrite orb_false_r.
  destruct (String.eqb_spec (name item) n) as [->|Hne]; simpl.
  - destruct (hasSubmenu item && isMenuActive pathname item);
      [apply lookup_insert_eq | reflexivity].
  - destruct (hasSubmenu item && isMenuActive pathname item);
      [now apply lookup_insert_ne | reflexivity].
Qed.

Lemma ActiveSection_existsb (pathname n : string) :
  ActiveSection pathname n <->
  existsb (fun item => String.eqb (name item) n && hasSubmenu item
                       && isMenuActive pathname item) navigationItems = true.
Proof.
  unfold ActiveSection. rewrite existsb_exists.
  split; intros (item & Hin & H); exists item; (split; [assumption|]).
  - destruct H as (<- & -> & ->). now rewrite String.eqb_refl.
  - apply andb_true_iff in H as [H ?]. apply andb_true_iff in H as [H ?].
    apply String.eqb_eq in H. auto.
Qed.

Lemma step_keeps_expanded (e : Event) (n : string) (st : UIState) :
  e <> ClickSection n ->
  expandedMenus st !! n = Some true ->
  expandedMenus (step e st) !! n = Some true.
Proof.
  intros Hne Hn. destruct e as [w|p| | | |m| | |]; try exact Hn.
  - unfold step, handle, handleResize, bind, setIsMobile.
    now destruct (w >=? 768).
  - rewrite step_route. cbn [withExpandedMenus expandedMenus].
    rewrite expandFold_lookup. now destruct (existsb _ _).
  - unfold step; simpl. rewrite lookup_insert_ne; [assumption|congruence].
Qed.

Lemma run_keeps_expanded (es : list Event) (n : string) (st : UIState) :
  Forall (fun e => e <> ClickSection n) es ->
  expandedMenus st !! n = Some true ->
  expandedMenus (run es st) !! n = Some true.
Proof.
  intros Hes. revert st. induction Hes as [|e es He _ IH]; intros st Hn.
  - exact Hn.
  - simpl. apply IH. now apply step_keeps_expanded.
Qed.

(** C4. The route effect turns on the entries of the sections that the
    new route makes active, leaves every other entry as it was, and turns
    nothing off; an entry that is on stays on through later route changes
    and through every event other than a click on that section. *)
Theorem auto_expand_monotone (pathname n : string) (st : UIState) :
  let st' := step (RouteChange pathname) st in
  (ActiveSection pathname n -> expandedMenus st' !! n = Some true) /\
  (~ ActiveSection pathname n ->
   expandedMenus st' !! n = expandedMenus st !! n) /\
  (expandedMenus st' !! n = Some false ->
   expandedMenus st !! n = Some false) /\
  (expandedMenus st' !! n = Some true ->
   (forall pathname',
      expandedMenus (step (RouteChange pathname') st') !! n = Some true) /\
   (forall es, Forall (fun e => e <> ClickSection n) es ->
      expandedMenus (run es st') !! n = Some true)).
Proof.
  intros st'.
  assert (expandedMenus st' !! n =
          if existsb (fun item => String.eqb (name item) n && hasSubmenu item
                                  && isMenuActive pathname item)
               navigationItems
          then Some true else expandedMenus st !! n) as Hl.
  { subst st'. rewrite step_route. apply expandFold_lookup. }
  clearbody st'.
  pose proof (ActiveSection_existsb pathname n) as Hact.
  assert (forall s : UIState, expandedMenus s !! n = Some true ->
            (forall pathname',
               expandedMenus (step (RouteChange pathname') s) !! n
               = Some true) /\
            (forall es, Forall (fun e => e <> ClickSection n) es ->
               expandedMenus (run es s) !! n = Some true)) as Hkeep.
  { intros s Hs. split.
    - intros p'. now apply step_keeps_expanded.
    - intros es Hes. now apply run_keeps_expanded. }
  destruct (existsb _ navigationItems) eqn:Hex.
  - split; [intros _; exact Hl|]. split; [|split].
    + intros Habs. exfalso. apply Habs. now apply Hact.
    + rewrite Hl. discriminate.
    + intros _. now apply Hkeep.
  - split; [|split; [intros _; exact Hl|split]].
    + intros Habs. apply Hact in Habs. discriminate.
    + now rewrite Hl.
    + intros Hon. now apply Hkeep.
Qed.

Lemma auto_expand_monotone_witness :
  expandedMenus
    (run [RouteChange "/business/orders"; Resize 500; ClickProfile]
       (step (RouteChange "/business/catalog/products") (initialState 1024)))
    !! "Catalog" = Some true.
Proof.
  destruct (auto_expand_monotone "/business/catalog/products" "Catalog"
              (initialState 1024)) as (Hon & _ & _ & Hstay).
  apply Hstay.
  - apply Hon.
    exists catalogSection.
    repeat split. right; left; reflexivity.
  - repeat constructor; discriminate.
Defined.

(** ** The catalog route *)

Lemma categories_route_active :
  existsb (fun item => String.eqb (name item) "Catalog" && hasSubmenu item
                       && isMenuActive categoriesRoute item)
          navigationItems = true.
Proof. reflexivity. Qed.

Lemma mount_expanded (w : Z) (p : string) :
  expandedMenus (mount w p) =
  expandFold navigationItems p {[ "Catalog" := true ]}.
Proof.
  unfold mount, bind, autoExpandEffect.
  destruct (resizeEffect w (initialState w)) as [[[] st1] c1] eqn:Hr.
  rewrite autoExpandOver_run. cbn [state_of fst snd].
  cbn [withExpandedMenus expandedMenus]. f_equal.
  revert Hr. unfold resizeEffect, handleResize, bind, call, setIsMobile.
  destruct (w >=? 768); simpl; now intros [= <- _].
Qed.

(** C5. On [/business/catalog/categories] the Catalog section is active,
    its expansion entry is true once the route effect has run (from any
    state, and on mount), and of its sub-items Categories alone is
    active. *)
Theorem categories_route_highlights :
  (forall st, expandedMenus (step (RouteChange categoriesRoute) st)
                !! "Catalog" = Some true) /\
  (forall w, expandedMenus (mount w categoriesRoute) !! "Catalog"
             = Some true) /\
  (forall location st,
     pathname location = categoriesRoute ->
     expandedMenus st !! "Catalog" = Some true ->
     List.filter entryActive (nav (NavigationShell location st)) =
     [ SectionEntry "Catalog" CubeIcon true true
         (Some [ {| sub_key := "Products";
                    sub_to := Some "/business/catalog/products";
                    sub_icon := CubeIcon; sub_active := false |};
                 {| sub_key := "Categories";
                    sub_to := Some "/business/catalog/categories";
                    sub_icon := ListBulletIcon; sub_active := true |};
                 {| sub_key := "Attributes";
                    sub_to := Some "/business/catalog/attributes";
                    sub_icon := AdjustmentsHorizontalIcon;
                    sub_active := false |} ]) ]).
Proof.
  split; [|split].
  - intros st. rewrite step_route. cbn [withExpandedMenus expandedMenus].
    rewrite expandFold_lookup. now rewrite categories_route_active.
  - intros w. rewrite mount_expanded, expandFold_lookup.
    now rewrite categories_route_active.
  - intros location st Hp Hex. unfold NavigationShell. cbn [nav].
    rewrite Hp. unfold navigationItems, renderItem, flat, section.
    cbn [map submenu name icon path]. unfold isExpanded. rewrite Hex.
    reflexivity.
Qed.

Lemma categories_route_highlights_witness :
  let location := {| pathname := categoriesRoute; search := "";
                     hash := ""; key := "default" |} in
  let st := step (RouteChange categoriesRoute) (initialState 500) in
  List.filter entryActive (nav (NavigationShell location st)) =
  [ SectionEntry "Catalog" CubeIcon true true
      (Some [ {| sub_key := "Products";
                 sub_to := Some "/business/catalog/products";
                 sub_icon := CubeIcon; sub_active := false |};
              {| sub_key := "Categories";
                 sub_to := Some "/business/catalog/categories";
                 sub_icon := ListBulletIcon; sub_active := true |};
              {| sub_key := "Attributes";
                 sub_to := Some "/business/catalog/attributes";
                 sub_icon := AdjustmentsHorizontalIcon;
                 sub_active := false |} ]) ].
Proof.
  intros location st.
  destruct categories_route_highlights as (Hroute & _ & Hview).
  apply Hview; [reflexivity | apply Hroute].
Defined.

(** ** Responsive behaviour *)

Lemma handleResize_run (w : Z) (st : UIState) :
  handleResize w st =
  (tt, {| isSidebarOpen := if w >=? 768 then true else isSidebarOpen st;
          isProfileMenuOpen := isProfileMenuOpen st;
          isNotificationsOpen := isNotificationsOpen st;
          isMobile := w <? 768;
          expandedMenus := expandedMenus st |}, []).
Proof.
  unfold handleResize, bind, setIsMobile. now destruct (w >=? 768).
Qed.

Lemma geb_768_true (w : Z) : 768 <= w -> (w >=? 768) = true.
Proof. intros H. apply Z.geb_le. lia. Qed.

Lemma geb_768_false (w : Z) : w < 768 -> (w >=? 768) = false.
Proof. intros H. rewrite Z.geb_leb. apply Z.leb_gt. lia. Qed.

(** C6. After a resize to a width below 768 the layout is narrow; a
    following resize to 768 or more leaves the sidebar open, whatever the
    flag was before. *)
Theorem resize_to_wide_opens_sidebar (st : UIState) (w0 w : Z) :
  w0 < 768 -> 768 <= w ->
  let narrow := step (Resize w0) st in
  let wide := step (Resize w) narrow in
  isMobile narrow = true /\
  isMobile wide = false /\
  isSidebarOpen wide = true.
Proof.
  intros H0 H narrow wide. subst wide narrow. unfold step, handle.
  rewrite !handleResize_run. cbn [state_of fst snd isMobile isSidebarOpen].
  rewrite (geb_768_true w H). repeat split; lia.
Qed.

Lemma resize_to_wide_opens_sidebar_witness :
  let closed := {| isSidebarOpen := false; isProfileMenuOpen := true;
                   isNotificationsOpen := false; isMobile := false;
                   expandedMenus := ∅ |} in
  isSidebarOpen (step (Resize 768) (step (Resize 767) closed)) = true.
Proof.
  intros closed.
  apply (resize_to_wide_opens_sidebar closed 767 768); lia.
Defined.

(** C10. A resize below 768 changes [isMobile] only; no resize turns the
    sidebar flag off; the only events that turn it off are the three
    clicks bound to [toggleSidebar], and each of them does. *)
Theorem resize_never_closes_sidebar (st : UIState) :
  (forall w, w < 768 ->
     step (Resize w) st =
     {| isSidebarOpen := isSidebarOpen st;
        isProfileMenuOpen := isProfileMenuOpen st;
        isNotificationsOpen := isNotificationsOpen st;
        isMobile := true;
        expandedMenus := expandedMenus st |}) /\
  (forall w, isSidebarOpen st = true ->
     isSidebarOpen (step (Resize w) st) = true) /\
  (forall e, isSidebarOpen st = true ->
     isSidebarOpen (step e st) = false ->
     handle e = toggleSidebar /\
     (e = ClickHamburger \/ e = ClickSidebarClose \/ e = ClickBackdrop)) /\
  (forall e, e = ClickHamburger \/ e = ClickSidebarClose \/ e = ClickBackdrop ->
     isSidebarOpen (step e st) = negb (isSidebarOpen st)).
Proof.
  split; [|split; [|split]].
  - intros w Hw. unfold step, handle. rewrite handleResize_run.
    cbn [state_of fst snd]. rewrite (geb_768_false w Hw).
    f_equal. apply Z.ltb_lt. lia.
  - intros w Hopen. unfold step, handle. rewrite handleResize_run.
    cbn [state_of fst snd isSidebarOpen]. now destruct (w >=? 768).
  - intros e Hopen Hclosed.
    destruct e as [w|p| | | |m| | |];
      try (split; [reflexivity | tauto]);
      exfalso; revert Hclosed; unfold step, handle.
    + rewrite handleResize_run. cbn [state_of fst snd isSidebarOpen].
      rewrite Hopen. now destruct (w >=? 768).
    + unfold autoExpandEffect. rewrite autoExpandOver_run. simpl. congruence.
    + simpl. congruence.
    + simpl. congruence.
    + simpl. congruence.
    + unfold handleLogout, bind, call, state_of. simpl. congruence.
  - intros e [-> | [-> | ->]]; reflexivity.
Qed.

Lemma resize_never_closes_sidebar_witness :
  let open := {| isSidebarOpen := true; isProfileMenuOpen := false;
                 isNotificationsOpen := false; isMobile := false;
                 expandedMenus := {[ "Catalog" := true ]} |} in
  isSidebarOpen (step (Resize 320) open) = true /\
  isMobile (step (Resize 320) open) = true /\
  isSidebarOpen (step ClickBackdrop (step (Resize 320) open)) = false.
Proof.
  intros open.
  destruct (resize_never_closes_sidebar open) as (Hnarrow & Hkeep & _ & _).
  destruct (resize_never_closes_sidebar (step (Resize 320) open))
    as (_ & _ & _ & Htoggle).
  split; [apply Hkeep; reflexivity|]. split.
  - rewrite Hnarrow; [reflexivity | lia].
  - rewrite Htoggle; [|auto]. rewrite Hkeep; reflexivity.
Defined.

(** ** Manual toggle *)

Lemma step_toggle (n : string) (st : UIState) :
  step (ClickSection n) st =
  withExpandedMenus st
    (<[n := negb (isExpanded (expandedMenus st) n)]> (expandedMenus st)).
Proof.
  unfold step, handle, toggleSubmenu, setExpandedMenus, state_of,
    withExpandedMenus, isExpanded, Js.not.
  cbn [fst snd]. now rewrite orb_false_r.
Qed.

Lemma isExpanded_insert (n : string) (b : bool) (m : gmap string bool) :
  isExpanded (<[n := b]> m) n = b.
Proof.
  unfold isExpanded. rewrite lookup_insert_eq. simpl. apply orb_false_r.
Qed.

(** C7. One click on a section negates its rendered expanded state; two
    clicks restore it, restore the whole state when the entry was present,
    and touch no other section's entry. *)
Theorem toggle_twice (n : string) (st : UIState) :
  let once := step (ClickSection n) st in
  let twice := step (ClickSection n) once in
  isExpanded (expandedMenus once) n = negb (isExpanded (expandedMenus st) n) /\
  isExpanded (expandedMenus twice) n = isExpanded (expandedMenus st) n /\
  (forall b, expandedMenus st !! n = Some b ->
     expandedMenus twice !! n = Some b /\ twice = st) /\
  (forall m, m <> n ->
     expandedMenus twice !! m = expandedMenus st !! m).
Proof.
  intros once twice. subst twice once. rewrite !step_toggle.
  cbn [withExpandedMenus expandedMenus]. rewrite !isExpanded_insert.
  rewrite negb_involutive, insert_insert_eq.
  split; [reflexivity|]. split; [reflexivity|]. split.
  - intros b Hb.
    assert (isExpanded (expandedMenus st) n = b) as ->
      by (unfold isExpanded; rewrite Hb; apply orb_false_r).
    split; [apply lookup_insert_eq|].
    rewrite (insert_id _ _ _ Hb). now destruct st.
  - intros m Hm. now apply lookup_insert_ne.
Qed.

Lemma toggle_twice_witness :
  step (ClickSection "Catalog")
    (step (ClickSection "Catalog") (initialState 1280)) = initialState 1280.
Proof.
  destruct (toggle_twice "Catalog" (initialState 1280)) as (_ & _ & Hsame & _).
  apply (Hsame true). reflexivity.
Defined.

(** ** Sign-out *)

(** C8. In every state, the sign-out handler calls the auth context's
    [logout] once and then navigates once, to the login route, and leaves
    the component's own state as it was. *)
Theorem sign_out_calls (st : UIState) :
  handleLogout st = (tt, st, [AuthLogout; RouterNavigate "/business-login"]) /\
  handle ClickSignOut st = handleLogout st /\
  length (List.filter (fun c => match c with AuthLogout => true | _ => false end)
            (calls_of (handleLogout st))) = 1%nat /\
  length (List.filter (fun c => match c with RouterNavigate _ => true
                                        | _ => false end)
            (calls_of (handleLogout st))) = 1%nat.
Proof.
  assert (handleLogout st =
          (tt, st, [AuthLogout; RouterNavigate "/business-login"])) as Hrun.
  { unfold handleLogout, bind, call, loginRoute. reflexivity. }
  rewrite Hrun. unfold calls_of. cbn [snd List.filter length].
  split; [reflexivity|]. split; [|split; reflexivity].
  unfold handle. now rewrite Hrun.
Qed.

(** ** The session gate *)

(** C1. With either flag false the component returns the replace
    redirect to the login route, carrying the location; with both true it
    returns the shell, whose content slot is the outlet. *)
Theorem session_gate (auth : AuthSnapshot) (location : Location)
    (st : UIState) :
  (isAuthenticated auth = Some false \/ isMerchant auth = Some false ->
   AdminLayout auth location st = redirectToLogin location) /\
  (isAuthenticated auth = Some true /\ isMerchant auth = Some true ->
   AdminLayout auth location st = Shell (NavigationShell location st) /\
   content (NavigationShell location st) = Outlet).
Proof.
  unfold AdminLayout, redirectToLogin. split.
  - intros [H | H]; rewrite H; simpl; [reflexivity|].
    now rewrite orb_true_r.
  - intros [Ha Hm]. now rewrite Ha, Hm.
Qed.

Lemma session_gate_witness :
  let location := {| pathname := "/business/orders"; search := "?page=2";
                     hash := ""; key := "k1" |} in
  let st := initialState 1024 in
  AdminLayout {| isAuthenticated := Some false; isMerchant := Some true;
                 isMerchantVerified := Some true; user := None |}
              location st = redirectToLogin location /\
  AdminLayout {| isAuthenticated := Some true; isMerchant := Some false;
                 isMerchantVerified := Some false; user := None |}
              location st = redirectToLogin location /\
  AdminLayout {| isAuthenticated := Some true; isMerchant := Some true;
                 isMerchantVerified := Some false; user := None |}
              location st = Shell (NavigationShell location st).
Proof.
  intros location st. split; [|split].
  - apply session_gate. left. reflexivity.
  - apply session_gate. right. reflexivity.
  - apply session_gate. split; reflexivity.
Defined.

(** C2. A flag that is undefined counts as false: the component redirects
    to the login route, and the shell is returned only when both flags are
    present and true. *)
Theorem gate_fails_closed (auth : AuthSnapshot) (location : Location)
    (st : UIState) :
  (isAuthenticated auth = None \/ isMerchant auth = None ->
   AdminLayout auth location st = redirectToLogin location) /\
  (forall view, AdminLayout auth location st = Shell view ->
     isAuthenticated auth = Some true /\ isMerchant auth = Some true).
Proof.
  unfold AdminLayout, redirectToLogin. split.
  - intros [H | H]; rewrite H; simpl; [reflexivity|].
    now rewrite orb_true_r.
  - intros view.
    destruct (isAuthenticated auth) as [[|]|], (isMerchant auth) as [[|]|];
      simpl; try discriminate. auto.
Qed.

Lemma gate_fails_closed_witness :
  let location := {| pathname := "/business/dashboard"; search := "";
                     hash := ""; key := "k0" |} in
  AdminLayout {| isAuthenticated := None; isMerchant := Some true;
                 isMerchantVerified := None; user := None |}
              location (initialState 390) = redirectToLogin location /\
  AdminLayout {| isAuthenticated := Some true; isMerchant := None;
                 isMerchantVerified := None; user := None |}
              location (initialState 390) = redirectToLogin location.
Proof.
  intros location. split.
  - apply gate_fails_closed. left. reflexivity.
  - apply gate_fails_closed. right. reflexivity.
Defined.

(** * Further properties of the shell *)

(** ** Routes below an entry *)

Lemma append_cons (x : ascii) (a b : string) :
  String x a +:+ b = String x (a +:+ b).
Proof. reflexivity. Qed.

Lemma append_assoc (a b c : string) : (a +:+ b) +:+ c = a +:+ (b +:+ c).
Proof.
  induction a as [|x a IH]; [reflexivity|].
  rewrite !append_cons. now f_equal.
Qed.

Lemma append_empty_r (a : string) : a +:+ "" = a.
Proof.
  induction a as [|x a IH]; [reflexivity|]. rewrite append_cons. now f_equal.
Qed.

Lemma append_cancel_l (a b c : string) : a +:+ b = a +:+ c -> b = c.
Proof.
  induction a as [|x a IH]; [trivial|].
  rewrite !append_cons. intros [= H]. now apply IH.
Qed.

(** X1. A sub-item that is active at a route stays active, with its
    section, at every route obtained by appending to it. *)
Theorem nested_route_keeps_highlight (pathname suffix : string)
    (it sub : NavigationItem) (subs : list NavigationItem) :
  submenu it = Some subs -> In sub subs ->
  isSubItemActive pathname sub = true ->
  isSubItemActive (pathname +:+ suffix) sub = true /\
  isMenuActive (pathname +:+ suffix) it = true.
Proof.
  intros Hs Hin Hact.
  assert (isSubItemActive (pathname +:+ suffix) sub = true) as Hext.
  { unfold isSubItemActive in *. apply startsWith_spec in Hact as [rest ->].
    apply startsWith_spec. exists (rest +:+ suffix). apply append_assoc. }
  split; [exact Hext|]. eapply section_active_intro; eauto.
Qed.

Lemma nested_route_keeps_highlight_witness :
  isSubItemActive ("/business/catalog/attributes" +:+ "/7/values")
    (flat "Attributes" "/business/catalog/attributes"
       AdjustmentsHorizontalIcon) = true /\
  isMenuActive ("/business/catalog/attributes" +:+ "/7/values")
    catalogSection = true.
Proof.
  eapply nested_route_keeps_highlight.
  - reflexivity.
  - right; right; left; reflexivity.
  - reflexivity.
Defined.

(** X2. An item without submenu is not active at any route that extends
    its path by at least one character. *)
Theorem flat_item_needs_exact_route (p suffix : string)
    (it : NavigationItem) :
  submenu it = None -> path it = Some p -> suffix <> "" ->
  isMenuActive (p +:+ suffix) it = false.
Proof.
  intros Hs Hp Hne. unfold isMenuActive. rewrite Hs, Hp. simpl.
  apply String.eqb_neq. intros Heq. apply Hne.
  apply (append_cancel_l p). now rewrite append_empty_r.
Qed.

Lemma flat_item_needs_exact_route_witness :
  isMenuActive ("/business/orders" +:+ "/1042")
    (flat "Orders" "/business/orders" ShoppingBagIcon) = false /\
  isMenuActive ("/business/orders" +:+ "/")
    (flat "Orders" "/business/orders" ShoppingBagIcon) = false.
Proof.
  split; apply flat_item_needs_exact_route;
    first [reflexivity | discriminate].
Defined.

(** ** How many entries are highlighted *)

Lemma entryActive_renderItem (p : string) (m : gmap string bool)
    (it : NavigationItem) :
  entryActive (renderItem p m it) = isMenuActive p it.
Proof. unfold renderItem. now destruct (submenu it). Qed.

Lemma filter_active_render (p : string) (m : gmap string bool)
    (items : list NavigationItem) :
  List.filter entryActive (map (renderItem p m) items) =
  map (renderItem p m) (List.filter (isMenuActive p) items).
Proof.
  induction items as [|it items IH]; [reflexivity|].
  cbn [map List.filter]. rewrite entryActive_renderItem.
  destruct (isMenuActive p it); cbn [map]; now rewrite IH.
Qed.

(** Two prefixes of one string are comparable. *)
Lemma two_prefixes (s a b : string) :
  Js.startsWith s a = true -> Js.startsWith s b = true ->
  Js.startsWith a b = true \/ Js.startsWith b a = true.
Proof.
  unfold Js.startsWith. revert a b.
  induction s as [|c s IH]; intros a b Ha Hb.
  - destruct a; [|discriminate]. destruct b; [|discriminate]. now left.
  - destruct a as [|x a]; [right; now destruct b|].
    destruct b as [|y b]; [now left|].
    simpl in *.
    destruct (ascii_dec x c) as [->|]; [|discriminate].
    destruct (ascii_dec y c) as [->|]; [|discriminate].
    destruct (ascii_dec c c) as [_|Hne]; [|now destruct Hne].
    now apply IH.
Qed.

(** X3. Whatever the route and the state, the sidebar highlights at most
    one of its top-level entries. *)
Theorem at_most_one_entry_highlighted (location : Location) (st : UIState) :
  (length (List.filter entryActive (nav (NavigationShell location st)))
   <= 1)%nat.
Proof.
  unfold NavigationShell. cbn [nav].
  generalize (pathname location) as p. intros p.
  rewrite filter_active_render, length_map.
  unfold navigationItems, isMenuActive, flat, section.
  cbn [List.filter submenu path Js.strictEq].
  repeat match goal with
         | |- context [String.eqb p ?lit] =>
             destruct (String.eqb_spec p lit) as [->|_];
             [vm_compute; lia|]
         end.
  destruct (existsb _ _); cbn [length]; lia.
Qed.

(** X4. Whatever the route and the state, at most one sub-item is
    highlighted under any rendered section. *)
Theorem at_most_one_subitem_highlighted (location : Location) (st : UIState)
    (entry : NavEntry) :
  In entry (nav (NavigationShell location st)) ->
  (subActiveCount (sectionChildren entry) <= 1)%nat.
Proof.
  unfold NavigationShell. cbn [nav].
  generalize (pathname location) as p. intros p.
  unfold navigationItems, renderItem, flat, section.
  cbn [map submenu path name icon In].
  intros Hin.
  repeat (destruct Hin as [<- | Hin]; [cbn; try lia|]); [|contradiction].
  destruct (isExpanded _ _); cbn [subActiveCount]; [|lia].
  cbn [List.filter sub_active renderSubItem].
  unfold isSubItemActive. cbn [path Js.toString default from_option id].
  destruct (Js.startsWith p "/business/catalog/products") eqn:H1,
           (Js.startsWith p "/business/catalog/categories") eqn:H2,
           (Js.startsWith p "/business/catalog/attributes") eqn:H3;
    simpl; try lia; exfalso.
  - destruct (two_prefixes _ _ _ H1 H2) as [H | H]; vm_compute in H;
      discriminate.
  - destruct (two_prefixes _ _ _ H1 H2) as [H | H]; vm_compute in H;
      discriminate.
  - destruct (two_prefixes _ _ _ H1 H3) as [H | H]; vm_compute in H;
      discriminate.
  - destruct (two_prefixes _ _ _ H2 H3) as [H | H]; vm_compute in H;
      discriminate.
Qed.

Lemma at_most_one_subitem_highlighted_witness :
  let location := {| pathname := "/business/catalog/products/new";
                     search := ""; hash := ""; key := "k" |} in
  (subActiveCount
     (sectionChildren
        (renderItem "/business/catalog/products/new"
           (expandedMenus (initialState 1024)) catalogSection)) <= 1)%nat.
Proof.
  intros location.
  apply (at_most_one_subitem_highlighted location (initialState 1024)).
  right; left. reflexivity.
Defined.

(** ** The route effect, again *)

Lemma route_effect_lookup (p n : string) (st : UIState) :
  expandedMenus (step (RouteChange p) st) !! n =
  if existsb (fun item => String.eqb (name item) n && hasSubmenu item
                          && isMenuActive p item) navigationItems
  then Some true else expandedMenus st !! n.
Proof. rewrite step_route. apply expandFold_lookup. Qed.

Lemma UIState_eq (a b : UIState) :
  isSidebarOpen a = isSidebarOpen b ->
  isProfileMenuOpen a = isProfileMenuOpen b ->
  isNotificationsOpen a = isNotificationsOpen b ->
  isMobile a = isMobile b ->
  expandedMenus a = expandedMenus b ->
  a = b.
Proof. destruct a, b; simpl; intros; subst; reflexivity. Qed.

(** X5. Running the route effect twice for one route is the same as
    running it once; the effects of two routes commute; the effect makes
    no call. *)
Theorem route_effect_idempotent (p q : string) (st : UIState) :
  step (RouteChange p) (step (RouteChange p) st) = step (RouteChange p) st /\
  step (RouteChange p) (step (RouteChange q) st) =
  step (RouteChange q) (step (RouteChange p) st) /\
  calls_of (handle (RouteChange p) st) = [].
Proof.
  split; [|split].
  - apply UIState_eq; try (now rewrite !step_route).
    apply map_eq. intros n. rewrite !route_effect_lookup.
    now destruct (existsb _ _).
  - apply UIState_eq; try (now rewrite !step_route).
    apply map_eq. intros n. rewrite !route_effect_lookup.
    now do 2 destruct (existsb _ _).
  - unfold handle, autoExpandEffect. now rewrite autoExpandOver_run.
Qed.

Lemma step_keeps_key (e : Event) (n : string) (st : UIState) :
  is_Some (expandedMenus st !! n) ->
  is_Some (expandedMenus (step e st) !! n).
Proof.
  intros Hn. destruct e as [w|p| | | |m| | |]; try exact Hn.
  - unfold step, handle. now rewrite handleResize_run.
  - rewrite route_effect_lookup. now destruct (existsb _ _).
  - rewrite step_toggle. cbn [withExpandedMenus expandedMenus].
    destruct (decide (m = n)) as [->|Hne].
    + rewrite lookup_insert_eq. eauto.
    + now rewrite lookup_insert_ne.
Qed.

(** X6. No event removes an entry from the expansion map: a key that is
    present stays present through every sequence of events. *)
Theorem expansion_entries_never_removed (es : list Event) (n : string)
    (st : UIState) :
  is_Some (expandedMenus st !! n) ->
  is_Some (expandedMenus (run es st) !! n).
Proof.
  revert st. induction es as [|e es IH]; intros st Hn; [exact Hn|].
  simpl. apply IH. now apply step_keeps_key.
Qed.

Lemma expansion_entries_never_removed_witness :
  is_Some (expandedMenus
             (run [ClickSection "Catalog"; RouteChange "/business/orders";
                   ClickSection "Orders"; Resize 400]
                  (initialState 1024)) !! "Catalog").
Proof.
  apply expansion_entries_never_removed.
  exists true. reflexivity.
Defined.

(** ** Popovers *)

Lemma step_cells (e : Event) (st : UIState) :
  (e <> ClickNotifications ->
   isNotificationsOpen (step e st) = isNotificationsOpen st) /\
  (e <> ClickProfile ->
   isProfileMenuOpen (step e st) = isProfileMenuOpen st).
Proof.
  destruct e as [w|p| | | |m| | |]; split; intros Hne;
    try reflexivity; try congruence.
  - unfold step, handle. now rewrite handleResize_run.
  - unfold step, handle. now rewrite handleResize_run.
  - now rewrite step_route.
  - now rewrite step_route.
Qed.

(** X7. Each popover flag is negated by a click on its own trigger and is
    changed by no other event, so the two panels open and close
    independently, and two clicks on a trigger restore the state. *)
Theorem popovers_are_independent (st : UIState) :
  (forall e, e <> ClickNotifications ->
     notificationsPanel_flag_unchanged e st) /\
  (forall e, e <> ClickProfile -> profileMenu_flag_unchanged e st) /\
  isNotificationsOpen (step ClickNotifications st)
    = negb (isNotificationsOpen st) /\
  isProfileMenuOpen (step ClickProfile st) = negb (isProfileMenuOpen st) /\
  step ClickNotifications (step ClickNotifications st) = st /\
  step ClickProfile (step ClickProfile st) = st.
Proof.
  unfold notificationsPanel_flag_unchanged, profileMenu_flag_unchanged.
  split; [intros e He; now apply step_cells|].
  split; [intros e He; now apply step_cells|].
  split; [reflexivity|]. split; [reflexivity|].
  split; apply UIState_eq; try reflexivity; cbn; apply negb_involutive.
Qed.

Lemma popovers_are_independent_witness :
  let st := run [ClickNotifications; ClickProfile; RouteChange "/business/orders"]
                (initialState 1024) in
  isNotificationsOpen st = true /\ isProfileMenuOpen st = true.
Proof.
  intros st. subst st. cbn [run fold_left].
  destruct (popovers_are_independent (initialState 1024))
    as (_ & _ & Hn & _).
  destruct (popovers_are_independent (step ClickNotifications (initialState 1024)))
    as (Hkeep & _ & _ & Hp & _).
  destruct (popovers_are_independent
              (step ClickProfile (step ClickNotifications (initialState 1024))))
    as (Hkeep2 & Hkeep3 & _).
  unfold notificationsPanel_flag_unchanged, profileMenu_flag_unchanged in *.
  split.
  - rewrite Hkeep2 by discriminate. rewrite Hkeep by discriminate.
    rewrite Hn. reflexivity.
  - rewrite Hkeep3 by discriminate. rewrite Hp.
    destruct (step_cells ClickNotifications (initialState 1024)) as [_ H].
    rewrite H by discriminate. reflexivity.
Defined.

(** ** Mount, session, unmount *)

Lemma handle_calls (e : Event) (st : UIState) :
  calls_of (handle e st) = callsFor e.
Proof.
  destruct e as [w|p| | | |m| | |]; try reflexivity.
  - unfold handle. now rewrite handleResize_run.
  - unfold handle, autoExpandEffect. now rewrite autoExpandOver_run.
Qed.

Lemma handleAll_run (es : list Event) (st : UIState) :
  handleAll es st = (tt, run es st, flat_map callsFor es).
Proof.
  unfold handleAll. revert st.
  induction es as [|e es IH]; intros st; [reflexivity|].
  cbn [forEach run fold_left flat_map]. unfold bind.
  pose proof (handle_calls e st) as Hc. unfold step, state_of, calls_of in *.
  destruct (handle e st) as [[[] st1] c1]. cbn [fst snd] in *.
  fold (run es st1). rewrite IH. now subst.
Qed.

Lemma resizeEffect_run (w : Z) (st : UIState) :
  resizeEffect w st =
  (tt, {| isSidebarOpen := if w >=? 768 then true else isSidebarOpen st;
          isProfileMenuOpen := isProfileMenuOpen st;
          isNotificationsOpen := isNotificationsOpen st;
          isMobile := w <? 768;
          expandedMenus := expandedMenus st |}, [AddResizeListener]).
Proof.
  unfold resizeEffect, call. unfold bind at 1.
  now rewrite handleResize_run.
Qed.

Lemma mount_run (w : Z) (p : string) :
  (resizeEffect w ;; autoExpandEffect p) (initialState w) =
  (tt, mount w p, [AddResizeListener]).
Proof.
  unfold mount, bind, autoExpandEffect.
  rewrite resizeEffect_run, autoExpandOver_run. reflexivity.
Qed.

(** X8. Over a whole life of the component the calls it makes are: the
    resize listener added first, then a logout and a navigation to the
    login route for each sign-out click and nothing for any other event,
    and the resize listener removed last. *)
Theorem lifecycle_calls (w : Z) (p : string) (es : list Event) :
  lifecycle w p es (initialState w) =
  (tt, run es (mount w p),
   AddResizeListener :: (flat_map callsFor es ++ [RemoveResizeListener])%list).
Proof.
  unfold lifecycle. unfold bind at 1. rewrite mount_run.
  unfold bind. rewrite handleAll_run. reflexivity.
Qed.

Lemma mount_expansion (p : string) :
  expandFold navigationItems p {[ "Catalog" := true ]}
  = ({[ "Catalog" := true ]} : gmap string bool).
Proof.
  apply map_eq. intros n. rewrite expandFold_lookup.
  destruct (existsb _ _) eqn:Hex; [|reflexivity].
  apply existsb_exists in Hex as (item & Hin & Hitem).
  apply andb_true_iff in Hitem as [Hitem _].
  apply andb_true_iff in Hitem as [Hname Hsub].
  apply String.eqb_eq in Hname. subst n.
  unfold navigationItems in Hin. cbn [In] in Hin.
  repeat (destruct Hin as [<- | Hin]; [try discriminate Hsub|]);
    [|contradiction].
  reflexivity.
Qed.

(** X9. After mounting at any width and route the sidebar is open exactly
    when the width is at least 768, both popovers are closed, the map
    holds the one entry Catalog = true, and no backdrop is rendered. *)
Theorem mount_state (w : Z) (p : string) :
  mount w p =
  {| isSidebarOpen := w >=? 768;
     isProfileMenuOpen := false;
     isNotificationsOpen := false;
     isMobile := w <? 768;
     expandedMenus := {[ "Catalog" := true ]} |} /\
  forall location, backdrop (NavigationShell location (mount w p)) = false.
Proof.
  assert (mount w p =
          {| isSidebarOpen := w >=? 768;
             isProfileMenuOpen := false;
             isNotificationsOpen := false;
             isMobile := w <? 768;
             expandedMenus := {[ "Catalog" := true ]} |}) as Hm.
  { apply UIState_eq;
      try (unfold mount, bind, autoExpandEffect;
           rewrite resizeEffect_run, autoExpandOver_run; cbn;
           now destruct (w >=? 768)).
    - rewrite mount_expanded. apply mount_expansion. }
  split; [exact Hm|]. intros location. rewrite Hm.
  cbn [NavigationShell backdrop isMobile isSidebarOpen].
  rewrite Z.geb_leb. destruct (Z.ltb_spec w 768), (Z.leb_spec 768 w);
    try reflexivity; lia.
Qed.

(** ** The drawer and its backdrop *)

(** X10. When the backdrop is rendered, a click on it closes the sidebar:
    the next render has neither the backdrop nor the sidebar shown, and
    nothing else in the state has changed. *)
Theorem backdrop_click_closes_drawer (location : Location) (st : UIState) :
  backdrop (NavigationShell location st) = true ->
  let st' := step ClickBackdrop st in
  sidebarShown (NavigationShell location st') = false /\
  backdrop (NavigationShell location st') = false /\
  nav (NavigationShell location st') = nav (NavigationShell location st) /\
  isMobile st' = isMobile st /\
  isProfileMenuOpen st' = isProfileMenuOpen st /\
  isNotificationsOpen st' = isNotificationsOpen st.
Proof.
  cbn [NavigationShell backdrop]. intros Hb.
  apply andb_true_iff in Hb as [Hm Ho].
  unfold step, handle, toggleSidebar, setIsSidebarOpen, state_of.
  cbn. rewrite Ho, Hm. repeat split.
Qed.

Lemma backdrop_click_closes_drawer_witness :
  let location := {| pathname := "/business/orders"; search := "";
                     hash := ""; key := "k" |} in
  let st := step ClickHamburger (mount 390 "/business/orders") in
  sidebarShown (NavigationShell location (step ClickBackdrop st)) = false.
Proof.
  intros location st.
  apply (backdrop_click_closes_drawer location st). reflexivity.
Defined.

(** X11. On a resize to 768 or more no backdrop and no close button are
    rendered and the sidebar is shown; if the window then shrinks below
    768 the sidebar is still shown, now with backdrop and close button. *)
Theorem shrinking_window_shows_overlay (location : Location) (st : UIState)
    (w0 w1 : Z) :
  768 <= w0 -> w1 < 768 ->
  let wide := NavigationShell location (step (Resize w0) st) in
  let narrow :=
    NavigationShell location (step (Resize w1) (step (Resize w0) st)) in
  (sidebarShown wide = true /\ backdrop wide = false /\
   closeButton wide = false) /\
  (sidebarShown narrow = true /\ backdrop narrow = true /\
   closeButton narrow = true).
Proof.
  intros H0 H1 wide narrow. subst wide narrow. unfold step, handle.
  rewrite !handleResize_run.
  cbn [state_of fst snd NavigationShell sidebarShown backdrop closeButton
       isMobile isSidebarOpen].
  rewrite (geb_768_true w0 H0), (geb_768_false w1 H1).
  assert ((w0 <? 768) = false) as -> by (apply Z.ltb_ge; lia).
  assert ((w1 <? 768) = true) as -> by (apply Z.ltb_lt; lia).
  repeat split.
Qed.

Lemma shrinking_window_shows_overlay_witness :
  let location := {| pathname := "/business/dashboard"; search := "";
                     hash := ""; key := "k" |} in
  backdrop (NavigationShell location
              (step (Resize 600) (step (Resize 1280) (initialState 1280))))
  = true.
Proof.
  intros location.
  apply (shrinking_window_shows_overlay location (initialState 1280) 1280 600);
    lia.
Defined.

(** ** Collapsing the section one is in *)



(** ** The profile button *)

Lemma charAt0_cases (s : string) :
  (s = "" /\ charAt0 s = "") \/
  (exists c rest, s = String c rest /\ charAt0 s = String c "").
Proof. destruct s as [|c rest]; [left | right]; eauto. Qed.

Lemma orString_nonempty (v : option string) (d : string) :
  d <> "" -> orString v d <> "".
Proof.
  intros Hd. unfold orString. destruct v as [s|]; [|exact Hd].
  destruct (String.eqb_spec s ""); assumption.
Qed.

Lemma orString_length1 (v : option string) (d : string) :
  String.length d = 1%nat ->
  String.length (orString (charAt0 <$> v) d) = 1%nat.
Proof.
  intros Hd. destruct v as [s|]; [|exact Hd]. simpl.
  destruct s as [|c rest]; [exact Hd | reflexivity].
Qed.

(** X13. The avatar always shows exactly one character: the first
    character of the user's name if the name is non-empty, else the first
    character of the email if that is non-empty, else M. *)
Theorem avatar_initial_is_one_character (u : option User) :
  String.length (avatarInitial u) = 1%nat /\
  (forall c rest, u ≫= user_name = Some (String c rest) ->
     avatarInitial u = String c "") /\
  (forall c rest, orString (u ≫= user_name) "" = "" ->
     u ≫= user_email = Some (String c rest) ->
     avatarInitial u = String c "") /\
  (orString (u ≫= user_name) "" = "" ->
   orString (u ≫= user_email) "" = "" ->
   avatarInitial u = "M").
Proof.
  unfold avatarInitial. split; [|split; [|split]].
  - apply orString_length1. now apply orString_length1.
  - intros c rest ->. reflexivity.
  - intros c rest Hn ->.
    destruct (u ≫= user_name) as [[|x n]|]; try discriminate; reflexivity.
  - intros Hn He.
    destruct (u ≫= user_name) as [[|x n]|]; try discriminate;
      destruct (u ≫= user_email) as [[|y e]|]; try discriminate; reflexivity.
Qed.

Lemma avatar_initial_is_one_character_witness :
  avatarInitial (Some {| user_name := Some "";
                         user_email := Some "ravi@shop.example" |}) = "r".
Proof.
  destruct (avatar_initial_is_one_character
              (Some {| user_name := Some "";
                       user_email := Some "ravi@shop.example" |}))
    as (_ & _ & Hemail & _).
  apply (Hemail "r"%char "avi@shop.example"); reflexivity.
Defined.

Lemma splitHead_spec (sep : ascii) (s : string) :
  ~ In sep (list_ascii_of_string (splitHead sep s)) /\
  (s = splitHead sep s \/
   exists rest, s = splitHead sep s +:+ String sep rest).
Proof.
  induction s as [|c s [IHno IHsplit]]; simpl.
  - split; [tauto | now left].
  - destruct (Ascii.eqb_spec c sep) as [->|Hne]; simpl.
    + split; [tauto|]. right. now exists s.
    + split; [intros [H|H]; [congruence | tauto]|].
      destruct IHsplit as [H | [rest H]].
      * left. now f_equal.
      * right. exists rest. rewrite append_cons. now f_equal.
Qed.

(** X14. The label beside the avatar is never empty: it is the user's
    name if that is non-empty, else the part of the email before its first
    at-sign if that part is non-empty (it then contains no at-sign), else
    Merchant. *)
Theorem display_name_never_empty (u : option User) :
  displayName u <> "" /\
  (forall n, u ≫= user_name = Some n -> n <> "" -> displayName u = n) /\
  (forall e, orString (u ≫= user_name) "" = "" ->
     u ≫= user_email = Some e -> splitHead "@" e <> "" ->
     displayName u = splitHead "@" e /\
     ~ In "@"%char (list_ascii_of_string (displayName u)) /\
     (e = displayName u \/
      exists rest, e = displayName u +:+ String "@" rest)) /\
  (forall e, orString (u ≫= user_name) "" = "" ->
     u ≫= user_email = Some e -> splitHead "@" e = "" ->
     displayName u = "Merchant").
Proof.
  unfold displayName. split; [|split; [|split]].
  - apply orString_nonempty. now apply orString_nonempty.
  - intros n -> Hn. simpl. now destruct (String.eqb_spec n "").
  - intros e Hn -> Hsplit.
    assert (orString (u ≫= user_name)
              (orString (splitHead "@" <$> Some e) "Merchant")
            = splitHead "@" e) as ->.
    { simpl. destruct (String.eqb_spec (splitHead "@" e) ""); [contradiction|].
      destruct (u ≫= user_name) as [[|x nm]|]; try discriminate; reflexivity. }
    split; [reflexivity|]. apply splitHead_spec.
  - intros e Hn -> Hsplit. simpl. rewrite Hsplit. simpl.
    destruct (u ≫= user_name) as [[|x nm]|]; try discriminate; reflexivity.
Qed.

Lemma display_name_never_empty_witness :
  displayName (Some {| user_name := None;
                       user_email := Some "asha@store.example" |}) = "asha" /\
  displayName (Some {| user_name := None;
                       user_email := Some "@store.example" |}) = "Merchant".
Proof.
  split.
  - destruct (display_name_never_empty
                (Some {| user_name := None;
                         user_email := Some "asha@store.example" |}))
      as (_ & _ & Hemail & _).
    destruct (Hemail "asha@store.example") as [H _];
      first [reflexivity | discriminate | exact H].
  - destruct (display_name_never_empty
                (Some {| user_name := None;
                         user_email := Some "@store.example" |}))
      as (_ & _ & _ & Hnone).
    apply (Hnone "@store.example"); reflexivity.
Defined.

(** * Properties of the sign-in page *)

Section SignInFacts.

Import SignIn.

Context {Num : Type} `{!JsNumber Num}.
Variable API_BASE_URL : option string.
Variable nullReadMessage : string -> string.

Ltac run_handler :=
  unfold handleSubmit, handleForgotPassword, handleGoogleSuccess,
    tryFinally, tryCatch, storeSession, throwUnlessOk, fetch, json, await,
    readProp, SignIn.bind, SignIn.call, setError, setIsSubmitting,
    setShowForgotPassword, throw, SignIn.ret, result_of, final_of, trace_of.

Ltac split_outcomes fetched stored :=
  destruct fetched as [[[|] [[]|?]]|?];
  try destruct stored as [[|]|?];
  cbn.

(** X15. Whatever the network and the auth context do, [handleSubmit]
    settles without throwing, leaves the submit button enabled, keeps the
    typed email and password and the form shown, and sends exactly one
    request: the closure's credentials, to the login endpoint. *)
Theorem submit_always_settles (fetched : Settled Response)
    (stored : Settled bool) (st : FormState) :
  let r := handleSubmit API_BASE_URL nullReadMessage fetched stored st in
  result_of r = Fulfilled tt /\
  isSubmitting (final_of r) = false /\
  submitDisabled (render (final_of r)) = false /\
  email (final_of r) = email st /\
  password (final_of r) = password st /\
  showForgotPassword (final_of r) = showForgotPassword st /\
  exists rest,
    trace_of r =
      PreventDefault
      :: Fetch (Js.toString API_BASE_URL +:+ "/api/auth/login")
           (LoginBody (email st) (password st))
      :: rest /\
    forall url b, ~ In (Fetch url b) rest.
Proof.
  intros r. subst r. run_handler. split_outcomes fetched stored.
  all: do 6 (split; [reflexivity|]).
  all: eexists; split; [reflexivity|].
  all: intros url rb Hin; cbn in Hin; intuition discriminate.
Qed.




(** X19. When [fetch] rejects or the body cannot be read, [handleSubmit]
    shows the message of the thrown error, or a fixed text when the
    thrown value is not an error, logs it, and does not call the auth
    context. *)
Theorem submit_reports_rejection (fetched : Settled Response) (t : Thrown)
    (stored : Settled bool) (st : FormState) :
  fetched = Rejected t \/
  (exists o, fetched = Fulfilled {| ok := o; body := Rejected t |}) ->
  let r := handleSubmit API_BASE_URL nullReadMessage fetched stored st in
  error (final_of r) = messageOf t "An error occurred during sign in" /\
  In (ConsoleError t) (trace_of r) /\
  (forall payload, ~ In (SetAuthState payload) (trace_of r)) /\
  ~ In (Navigate "/") (trace_of r).
Proof.
  intros [-> | [o ->]] r; subst r; run_handler; cbn.
  - repeat split; [tauto | |]; intros; intuition discriminate.
  - destruct o; cbn; (repeat split; [tauto | |]);
      intros; intuition discriminate.
Qed.

(** X20. [handleForgotPassword] always settles with the button enabled
    and email and password kept; it sends one request, carrying the email
    only, and calls neither the auth context nor the router.  On an ok
    response whose body parses it shows the confirmation text in the
    banner and returns to the sign-in form; otherwise the reset form
    stays. *)
Theorem reset_request_outcome (fetched : Settled Response) (st : FormState) :
  let r := handleForgotPassword API_BASE_URL nullReadMessage fetched st in
  result_of r = Fulfilled tt /\
  isSubmitting (final_of r) = false /\
  email (final_of r) = email st /\
  password (final_of r) = password st /\
  (exists rest,
     trace_of r =
       PreventDefault
       :: Fetch (Js.toString API_BASE_URL
                 +:+ "/api/auth/password/reset-request")
            (ResetBody (email st))
       :: rest /\
     (rest = [] \/ rest = [ReadJson])) /\
  ((exists data,
      fetched = Fulfilled {| ok := true; body := Fulfilled data |}) ->
   error (final_of r)
     = "Password reset email sent. Please check your inbox." /\
   showForgotPassword (final_of r) = false /\
   form (render (final_of r)) = SignInForm /\
   banner (render (final_of r))
     = Some "Password reset email sent. Please check your inbox.") /\
  (~ (exists data,
        fetched = Fulfilled {| ok := true; body := Fulfilled data |}) ->
   showForgotPassword (final_of r) = showForgotPassword st).
Proof.
  intros r. subst r. run_handler.
  destruct fetched as [[[|] [[]|?]]|?]; cbn.
  all: do 4 (split; [reflexivity|]).
  all: split; [eexists; split; [reflexivity|]; tauto|].
  all: split.
  all: try (intros [d Heq]; discriminate Heq).
  all: try solve [intros Hno; reflexivity].
  all: try solve [intros Hno; exfalso; apply Hno; eexists; reflexivity].
  all: intros _; repeat split.
Qed.


End SignInFacts.

Section UserObjectFacts.

Import SignIn.

Context {Num : Type} `{!JsNumber Num}.

(** ** The user object *)

Lemma trimStart_head (s : string) (c : ascii) (rest : string) :
  trimStart s = String c rest -> isWhiteSpace c = false.
Proof.
  induction s as [|a s IH]; [discriminate|]. simpl.
  destruct (isWhiteSpace a) eqn:Ha; [exact IH|].
  intros [= <- _]. exact Ha.
Qed.

Lemma trimEnd_head (s : string) (c : ascii) (rest : string) :
  trimEnd s = String c rest -> exists rest0, s = String c rest0.
Proof.
  destruct s as [|a s]; [discriminate|]. simpl.
  destruct (trimEnd s); [destruct (isWhiteSpace a); [discriminate|]|];
    intros [= <- _]; eauto.
Qed.

Lemma trimEnd_last (s init : string) (c : ascii) :
  trimEnd s = init +:+ String c "" -> isWhiteSpace c = false.
Proof.
  revert init. induction s as [|a s IH]; intros init.
  - destruct init; discriminate.
  - simpl. destruct (trimEnd s) as [|k kept].
    + destruct (isWhiteSpace a) eqn:Ha.
      * destruct init; discriminate.
      * destruct init as [|x init]; [now intros [= <-]|].
        rewrite append_cons. intros [= _ Hrest].
        destruct init; discriminate.
    + destruct init as [|x init]; [discriminate|].
      rewrite append_cons. intros [= _ Hrest]. now apply (IH init).
Qed.

Lemma trim_edges (s : string) :
  (forall c rest, trim s = String c rest -> isWhiteSpace c = false) /\
  (forall init c, trim s = init +:+ String c "" -> isWhiteSpace c = false).
Proof.
  unfold trim. split.
  - intros c rest Ht. apply trimEnd_head in Ht as [rest0 Ht].
    now apply trimStart_head in Ht.
  - intros init c. apply trimEnd_last.
Qed.

Ltac case_full_name :=
  match goal with
  | |- context [String.eqb ?full ""] => destruct (String.eqb_spec full "")
  end.

(** X22. The user object built from a response has the role merchant
    exactly for the role string MERCHANT, admin exactly for ADMIN and
    customer otherwise; its name is never empty and neither begins nor
    ends with white space; its id is never falsy; its email is the
    fallback when the response has no truthy email. *)
Theorem user_object_shape (u : option (Json Num)) (fallbackEmail : string) :
  let o := userObjOf u fallbackEmail in
  (obj_role o = merchant <-> optProp u "role" = Some (JStr "MERCHANT")) /\
  (obj_role o = admin <-> optProp u "role" = Some (JStr "ADMIN")) /\
  obj_name o <> "" /\
  (forall c rest, obj_name o = String c rest -> isWhiteSpace c = false) /\
  (forall init c, obj_name o = init +:+ String c "" ->
     isWhiteSpace c = false) /\
  truthy (Some (obj_id o)) = true /\
  (truthy (optProp u "email") = false -> obj_email o = JStr fallbackEmail).
Proof.
  cbn [userObjOf obj_role obj_name obj_id obj_email].
  split; [|split; [|split; [|split; [|split; [|split]]]]].
  - unfold roleOf, strictEqStr.
    destruct (optProp u "role") as [[| | |s| |]|]; try (split; discriminate).
    destruct (String.eqb_spec s "MERCHANT") as [->|Hm]; [tauto|].
    destruct (String.eqb_spec s "ADMIN"); split; try discriminate;
      intros [= ?]; contradiction.
  - unfold roleOf, strictEqStr.
    destruct (optProp u "role") as [[| | |s| |]|]; try (split; discriminate).
    destruct (String.eqb_spec s "MERCHANT") as [->|Hm];
      [split; discriminate|].
    destruct (String.eqb_spec s "ADMIN") as [->|Ha]; [tauto|].
    split; [discriminate | intros [= ?]; contradiction].
  - unfold nameOf. case_full_name; [discriminate|].
    assumption.
  - unfold nameOf. case_full_name.
    + now intros c rest [= <- _].
    + apply trim_edges.
  - unfold nameOf. case_full_name.
    + intros init c Hu.
      destruct init as [|? [|? [|? [|? [|? ?]]]]]; inversion Hu; reflexivity.
    + apply trim_edges.
  - unfold orElse. destruct (optProp u "id") as [j|]; [|reflexivity].
    destruct (truthy (Some j)) eqn:Hj; [exact Hj | reflexivity].
  - intros Hfalsy. unfold orElse.
    destruct (optProp u "email"); [now rewrite Hfalsy | reflexivity].
Qed.

End UserObjectFacts.

(** ** Instances at concrete responses *)

Lemma submit_always_settles_witness :
  let st := {| SignIn.email := "asha@store.example";
               SignIn.password := "hunter2"; SignIn.error := "old";
               SignIn.isSubmitting := false;
               SignIn.showForgotPassword := false |} in
  let r := SignIn.handleSubmit (Num := Z) (Some "https://api.example")
             (fun k => "Cannot read properties of null") 
             (SignIn.Rejected SignIn.NotAnError)
             (SignIn.Fulfilled true) st in
  SignIn.result_of r = SignIn.Fulfilled tt /\
  SignIn.isSubmitting (SignIn.final_of r) = false.
Proof.
  intros st r.
  destruct (submit_always_settles (Num := Z) (Some "https://api.example")
              (fun k => "Cannot read properties of null")
              (SignIn.Rejected SignIn.NotAnError) (SignIn.Fulfilled true) st)
    as (Hsettled & Hflag & _).
  split; [exact Hsettled | exact Hflag].
Defined.




Lemma submit_reports_rejection_witness :
  let st := {| SignIn.email := "a@b.example"; SignIn.password := "pw";
               SignIn.error := ""; SignIn.isSubmitting := false;
               SignIn.showForgotPassword := false |} in
  SignIn.error
    (SignIn.final_of
       (SignIn.handleSubmit (Num := Z) None (fun k => k)
          (SignIn.Rejected (SignIn.ErrorObject "Failed to fetch"))
          (SignIn.Fulfilled true) st)) = "Failed to fetch".
Proof.
  intros st.
  apply (submit_reports_rejection (Num := Z) None (fun k => k)
           (SignIn.Rejected (SignIn.ErrorObject "Failed to fetch"))
           (SignIn.ErrorObject "Failed to fetch")).
  left. reflexivity.
Defined.

Lemma reset_request_outcome_witness :
  let st := {| SignIn.email := "asha@store.example";
               SignIn.password := "hunter2"; SignIn.error := "";
               SignIn.isSubmitting := false;
               SignIn.showForgotPassword := true |} in
  SignIn.form
    (SignIn.render
       (SignIn.final_of
          (SignIn.handleForgotPassword (Num := Z) None (fun k => k)
             (SignIn.Fulfilled {| SignIn.ok := true;
                                  SignIn.body :=
                                    SignIn.Fulfilled SignIn.JNull |}) st)))
  = SignIn.SignInForm.
Proof.
  intros st.
  destruct (reset_request_outcome (Num := Z) None (fun k => k)
              (SignIn.Fulfilled {| SignIn.ok := true;
                                   SignIn.body :=
                                     SignIn.Fulfilled SignIn.JNull |}) st)
    as (_ & _ & _ & _ & _ & Hok & _).
  apply Hok. eexists. reflexivity.
Defined.


Lemma user_object_shape_witness :
  let u := Some (SignIn.JObj [ ("first_name", SignIn.JStr " Asha");
                               ("role", SignIn.JStr "MERCHANT") ]) in
  SignIn.obj_role (SignIn.userObjOf (Num := Z) u "typed@store.example")
    = SignIn.merchant /\
  SignIn.obj_email (SignIn.userObjOf (Num := Z) u "typed@store.example")
    = SignIn.JStr "typed@store.example".
Proof.
  intros u.
  destruct (user_object_shape (Num := Z) u "typed@store.example")
    as (Hrole & _ & _ & _ & _ & _ & Hemail).
  split; [apply Hrole | apply Hemail]; reflexivity.
Defined.
